(** * Presence detector firmware (test1_esp_working.cpp)

    A shallow embedding of the sketch: the global sample window with its
    write cursor, [setup], [checkBreathing] and one iteration of [loop].
    Array accesses are checked, so that an access outside [samples] is
    an explicit [OutOfBounds] result instead of undefined behaviour.
    The hardware (radar pin, ADC, millisecond clock) is an input record
    per iteration, the serial port and the LED are a list of events. *)

From stdpp Require Import base numbers list strings pretty.

Local Open Scope Z_scope.

(** ** Machine integers

    On the ESP32 [int] and [long] are 32-bit two's complement and
    [unsigned long] is 32-bit; values are kept in [Z] and wrapped where
    the sketch computes on them. *)

Definition to_int (z : Z) : Z := (z + 2 ^ 31) mod 2 ^ 32 - 2 ^ 31.

Definition to_ulong (z : Z) : Z := z mod 2 ^ 32.

Definition INT_MAX : Z := 2 ^ 31 - 1.

Definition ULONG_MAX : Z := 2 ^ 32 - 1.

(** ** Checked array accesses *)

Inductive result (A : Type) : Type :=
  | Ok (a : A)
  | OutOfBounds.

Arguments Ok {A} a.
Arguments OutOfBounds {A}.

Definition bind {A B : Type} (r : result A) (k : A → result B) : result B :=
  match r with
  | Ok a => k a
  | OutOfBounds => OutOfBounds
  end.

Declare Scope result_scope.
Delimit Scope result_scope with result.
Notation "'let*' x ':=' r 'in' k" := (bind r (λ x, k))
  (at level 10, x pattern, r at level 100, k at level 200) : result_scope.
Local Open Scope result_scope.

(** [a[i]] as an rvalue. *)
Definition array_get (a : list Z) (i : Z) : result Z :=
  if bool_decide (0 ≤ i) then
    match a !! Z.to_nat i with
    | Some v => Ok v
    | None => OutOfBounds
    end
  else OutOfBounds.

(** [a[i] = v]. *)
Definition array_set (a : list Z) (i v : Z) : result (list Z) :=
  if bool_decide (0 ≤ i < Z.of_nat (length a)) then Ok (<[Z.to_nat i := v]> a)
  else OutOfBounds.

(** [for (int i = lo; i < hi; i++) body], the body changing neither [i]
    nor [hi]: [Z.to_nat (hi - lo)] iterations, none when [hi <= lo]. *)
Fixpoint iterate {S : Type} (body : Z → S → result S) (n : nat) (i : Z) (s : S)
  : result S :=
  match n with
  | O => Ok s
  | S n' => let* s' := body i s in iterate body n' (i + 1) s'
  end.

Definition for_loop {S : Type} (lo hi : Z) (body : Z → S → result S) (s : S)
  : result S :=
  iterate body (Z.to_nat (hi - lo)) lo s.

(** ** The Arduino core, as far as the sketch uses it *)

Module Arduino.

Definition HIGH : Z := 1.
Definition LOW : Z := 0.

(** Modelled from the spec: [map] is the Arduino core's linear remap,
    which the sketch calls and does not define. The spec gives it as
    [out_min + (x - in_min) * (out_max - out_min) / (in_max - in_min)]
    with integer division truncating toward zero. *)
Definition map (x in_min in_max out_min out_max : Z) : Z :=
  out_min + ((x - in_min) * (out_max - out_min)) `quot` (in_max - in_min).

End Arduino.

(** What one iteration does to the outside world, in program order. *)
Inductive event : Type :=
  | SerialPrint (s : string)
  | SerialPrintln (n : Z)
  | DigitalWrite (pin level : Z)
  | Delay (ms : Z).

(** The characters an event puts on the serial line. [Serial.println]
    of an [int] writes its decimal digits and then the line terminator
    [eol] of the serial library. *)
Definition serial_of (eol : string) (e : event) : string :=
  match e with
  | SerialPrint s => s
  | SerialPrintln n => pretty n +:+ eol
  | DigitalWrite _ _ => EmptyString
  | Delay _ => EmptyString
  end.

Definition serial_output (eol : string) (es : list event) : string :=
  foldr (λ e acc, serial_of eol e +:+ acc) EmptyString es.

(** ** The sketch *)

Definition radarPin : Z := 23.
Definition ledPin : Z := 2.
Definition co2Pin : Z := 34.

(** The globals, and the function-local static [lastCheck] of [loop]. *)
Record state : Type := State {
  samples : list Z;
  indexSample : Z;
  lastCheck : Z
}.

(** What the hardware returns during one iteration of [loop]:
    [digitalRead(radarPin)], [analogRead(co2Pin)], and the two calls of
    [millis()], the one in the condition and the one stored. *)
Record readings : Type := Readings {
  radarVal : Z;
  co2Raw : Z;
  millis_cond : Z;
  millis_store : Z
}.

(** [transitions >= 3 && transitions <= 10], line 30. *)
Definition isPresent (transitions : Z) : bool :=
  bool_decide (3 ≤ transitions) && bool_decide (transitions ≤ 10).

(** [millis() - lastCheck > period] on [unsigned long], line 42. *)
Definition evaluationDue (now lastEvaluationTimestamp periodMillis : Z) : bool :=
  bool_decide (to_ulong (now - lastEvaluationTimestamp) > periodMillis).

(** [map(co2Raw, 0, 4095, 400, 2000)], line 39. *)
Definition mapCo2 (rawAdcValue : Z) : Z :=
  Arduino.map rawAdcValue 0 4095 400 2000.

(** Lines 27 and 28, the body of the loop of [checkBreathing]:
    [if (samples[i] != prev) transitions++; prev = samples[i];]
    Both reads of [samples[i]] see the same slot, nothing being written
    in between. *)
Definition count_step (snapshot : list Z) (i : Z) (acc : Z * Z) : result (Z * Z) :=
  let '(transitions, prev) := acc in
  let* s := array_get snapshot i in
  Ok (if bool_decide (s ≠ prev) then to_int (transitions + 1) else transitions, s).

Section Sketch.

(** [windowSize] and [sampleInterval] are [const int] in the sketch,
    both 100 (see [Esp32] below); the functions are written over them
    so that windows of other capacities can be stated. *)
Variables windowSize sampleInterval : Z.

(** The arrays of statics start zeroed. *)
Definition boot : state :=
  {| samples := replicate (Z.to_nat windowSize) 0;
     indexSample := 0;
     lastCheck := 0 |}.

(** [for(int i = 0; i < windowSize; i++) samples[i] = 1;] *)
Definition setup (st : state) : result state :=
  let* a := for_loop 0 windowSize (λ i a, array_set a i 1) (samples st) in
  Ok {| samples := a; indexSample := indexSample st; lastCheck := lastCheck st |}.

(** Lines 24 to 29: the counter and [prev] are the loop state. *)
Definition countTransitions (snapshot : list Z) : result Z :=
  let* prev := array_get snapshot 0 in
  let* (transitions, _) :=
    for_loop 1 windowSize (count_step snapshot) (0, prev) in
  Ok transitions.

Definition checkBreathing (snapshot : list Z) : result bool :=
  let* transitions := countTransitions snapshot in
  Ok (isPresent transitions).

(** Lines 35 and 36. *)
Definition insert (value : Z) (st : state) : result state :=
  let* a := array_set (samples st) (indexSample st) value in
  Ok {| samples := a;
        indexSample := to_int (indexSample st + 1) `rem` windowSize;
        lastCheck := lastCheck st |}.

(** [windowSize * sampleInterval] is an [int] product, converted to
    [unsigned long] for the comparison. *)
Definition evaluationPeriod : Z :=
  to_ulong (to_int (windowSize * sampleInterval)).

(** Lines 33 to 57: the sample is stored before the gate is looked at,
    and [lastCheck] is stamped before [checkBreathing] runs. *)
Definition loop (r : readings) (st : state) : result (state * list event) :=
  let* st1 := insert (radarVal r) st in
  let co2ppm := to_int (mapCo2 (co2Raw r)) in
  if evaluationDue (millis_cond r) (lastCheck st1) evaluationPeriod then
    let st2 := {| samples := samples st1;
                  indexSample := indexSample st1;
                  lastCheck := to_ulong (millis_store r) |} in
    let* present := checkBreathing (samples st2) in
    Ok (st2,
        (if present
         then [SerialPrint "HUMAN,"; DigitalWrite ledPin Arduino.HIGH]
         else [SerialPrint "NO HUMAN,"; DigitalWrite ledPin Arduino.LOW])
        ++ [SerialPrintln co2ppm; Delay sampleInterval])
  else Ok (st1, [Delay sampleInterval]).

(** [setup] once, then [loop] on each reading in turn; the events of
    all iterations are concatenated. *)
Fixpoint run_loops (rs : list readings) (st : state) : result (state * list event) :=
  match rs with
  | [] => Ok (st, [])
  | r :: rs' =>
      let* (st1, es1) := loop r st in
      let* (st2, es2) := run_loops rs' st1 in
      Ok (st2, es1 ++ es2)
  end.

Definition run (rs : list readings) : result (state * list event) :=
  let* st := setup boot in
  run_loops rs st.

End Sketch.

(** The constants of the sketch. *)
Module Esp32.
Definition windowSize : Z := 100.
Definition sampleInterval : Z := 100.
End Esp32.

(** * Specification-side notions *)

(** The words of the specification for the transition count: the number
    of positions [i], from 1 to the end, whose element differs from the
    one just before it. *)
Definition adjacent_differences (l : list Z) : nat :=
  length (filter (λ i, l !! i ≠ l !! pred i) (seq 1 (pred (length l)))).

(** The window is well formed: [samples] has [capacity] slots and the
    write cursor points at one of them. *)
Definition window_ok (capacity : Z) (st : state) : Prop :=
  Z.of_nat (length (samples st)) = capacity ∧ 0 ≤ indexSample st < capacity.

(** [insert] of each value in turn. *)
Fixpoint insert_all (capacity : Z) (vs : list Z) (st : state) : result state :=
  match vs with
  | [] => Ok st
  | v :: vs' => let* st1 := insert capacity v st in insert_all capacity vs' st1
  end.

(** The state [insert] leaves behind when the cursor is in range. *)
Definition inserted (capacity value : Z) (st : state) : state :=
  {| samples := <[Z.to_nat (indexSample st) := value]> (samples st);
     indexSample := (indexSample st + 1) mod capacity;
     lastCheck := lastCheck st |}.

(** The events of an iteration in which the evaluation is due. *)
Definition report (sampleInterval : Z) (present : bool) (co2ppm : Z) : list event :=
  (if present
   then [SerialPrint "HUMAN,"; DigitalWrite ledPin Arduino.HIGH]
   else [SerialPrint "NO HUMAN,"; DigitalWrite ledPin Arduino.LOW])
  ++ [SerialPrintln co2ppm; Delay sampleInterval].

Definition stamped (now : Z) (st : state) : state :=
  {| samples := samples st; indexSample := indexSample st; lastCheck := to_ulong now |}.

(** The line feed character. *)
Definition LF : string := String (Ascii.ascii_of_nat 10) EmptyString.

(** The [digitalWrite] calls among a list of events, as pairs of pin
    and level, in program order. *)
Definition digital_writes (es : list event) : list (Z * Z) :=
  omap (λ e, match e with
             | DigitalWrite pin level => Some (pin, level)
             | _ => None
             end) es.

(** The samples of the window oldest first: the slot at the write
    cursor is the next to be overwritten, so it holds the oldest
    sample, and the slot just before the cursor the newest. *)
Definition arrival_order (st : state) : list Z :=
  drop (Z.to_nat (indexSample st)) (samples st)
  ++ take (Z.to_nat (indexSample st)) (samples st).

(** What [digitalRead] returns: [LOW] or [HIGH]. *)
Definition binary (v : Z) : Prop := v = Arduino.LOW ∨ v = Arduino.HIGH.

(** Whether two neighbouring entries differ, none when one is missing. *)
Definition seam (a b : option Z) : nat :=
  match a, b with
  | Some x, Some y => if bool_decide (y ≠ x) then 1 else 0
  | _, _ => 0
  end.

(** The adjacent differences of a list, by recursion on the list. *)
Fixpoint flips (l : list Z) : nat :=
  match l with
  | [] => 0
  | x :: t => seam (Some x) (head t) + flips t
  end.

(** Closes the side conditions on the ranges of [int] and
    [unsigned long]. *)
Ltac int_range :=
  unfold Esp32.windowSize, Esp32.sampleInterval, INT_MAX, ULONG_MAX in *; lia.

(** * Machine integers stay in range *)

Lemma to_int_small z : - 2 ^ 31 ≤ z ≤ INT_MAX → to_int z = z.
Proof.
  unfold to_int, INT_MAX. intros Hz.
  rewrite Z.mod_small; lia.
Qed.

Lemma to_ulong_small z : 0 ≤ z ≤ ULONG_MAX → to_ulong z = z.
Proof.
  unfold to_ulong, ULONG_MAX. intros Hz.
  apply Z.mod_small. lia.
Qed.

(** * Array accesses within bounds succeed *)

Lemma array_get_lookup (a : list Z) (k : nat) v :
  a !! k = Some v → array_get a (Z.of_nat k) = Ok v.
Proof.
  intros Hk. unfold array_get.
  rewrite bool_decide_eq_true_2 by lia.
  by rewrite Nat2Z.id, Hk.
Qed.

Lemma array_get_in_bounds (a : list Z) i :
  0 ≤ i < Z.of_nat (length a) → ∃ v, array_get a i = Ok v ∧ a !! Z.to_nat i = Some v.
Proof.
  intros Hi.
  destruct (lookup_lt_is_Some_2 a (Z.to_nat i)) as [v Hv]; [lia|].
  exists v. split; [|done].
  rewrite <- (Z2Nat.id i) by lia. by apply array_get_lookup.
Qed.

Lemma array_set_in_bounds (a : list Z) i v :
  0 ≤ i < Z.of_nat (length a) → array_set a i v = Ok (<[Z.to_nat i := v]> a).
Proof.
  intros Hi. unfold array_set. by rewrite bool_decide_eq_true_2.
Qed.

(** * [setup] fills the window with ones *)

Lemma fill_ones n : ∀ (l1 l2 : list Z),
  (n ≤ length l2)%nat →
  iterate (λ i a, array_set a i 1) n (Z.of_nat (length l1)) (l1 ++ l2)
  = Ok (l1 ++ replicate n 1 ++ drop n l2).
Proof.
  induction n as [|n IH]; intros l1 l2 Hn; simpl.
  - by rewrite drop_0.
  - destruct l2 as [|x l2]; simpl in Hn; [lia|].
    rewrite array_set_in_bounds by (rewrite length_app; simpl; lia).
    simpl. rewrite Nat2Z.id, insert_app_r_alt, Nat.sub_diag by lia. simpl.
    replace (Z.of_nat (length l1) + 1) with (Z.of_nat (length (l1 ++ [1])))
      by (rewrite length_app; simpl; lia).
    change (l1 ++ 1 :: l2) with (l1 ++ [1] ++ l2).
    rewrite (assoc_L (++) l1 [1] l2), IH by lia.
    by rewrite <- (assoc_L (++)).
Qed.

Lemma setup_ok N st :
  Z.of_nat (length (samples st)) = N →
  setup N st = Ok {| samples := replicate (Z.to_nat N) 1;
                     indexSample := indexSample st;
                     lastCheck := lastCheck st |}.
Proof.
  intros HN. unfold setup, for_loop.
  rewrite Z.sub_0_r.
  pose proof (fill_ones (Z.to_nat N) [] (samples st)) as H.
  change (Z.of_nat (length (@nil Z))) with 0 in H.
  change ([] ++ samples st) with (samples st) in H.
  rewrite H by lia.
  simpl. by rewrite drop_ge, app_nil_r by lia.
Qed.

Lemma setup_boot N :
  0 ≤ N →
  setup N (boot N) = Ok {| samples := replicate (Z.to_nat N) 1;
                           indexSample := 0; lastCheck := 0 |}.
Proof.
  intros HN. apply (setup_ok N (boot N)).
  simpl. rewrite length_replicate. lia.
Qed.

(** * The loop of [checkBreathing] counts adjacent differences *)

Lemma count_loop (l : list Z) n : ∀ (k : nat) t prev,
  (k + n ≤ length l)%nat →
  l !! pred k = Some prev →
  (1 ≤ k)%nat →
  0 ≤ t →
  t + Z.of_nat n ≤ INT_MAX →
  ∃ last,
    iterate (count_step l) n (Z.of_nat k) (t, prev)
    = Ok (t + Z.of_nat (length (filter (λ i, l !! i ≠ l !! pred i) (seq k n))), last).
Proof.
  induction n as [|n IH]; intros k t prev Hlen Hprev Hk Ht Hmax; simpl.
  - exists prev. by rewrite Z.add_0_r.
  - destruct (lookup_lt_is_Some_2 l k) as [s Hs]; [lia|].
    rewrite (array_get_lookup l k s Hs). simpl.
    replace (Z.of_nat k + 1) with (Z.of_nat (S k)) by lia.
    rewrite filter_cons, Hs, Hprev.
    destruct (decide (s = prev)) as [->|Hne].
    + rewrite bool_decide_eq_false_2 by naive_solver.
      rewrite decide_False by naive_solver.
      apply IH; simpl; try done; lia.
    + rewrite bool_decide_eq_true_2 by done.
      rewrite decide_True by congruence.
      rewrite to_int_small by int_range.
      destruct (IH (S k) (t + 1) s) as [last Hlast]; simpl; try done; try lia.
      exists last. rewrite Hlast. f_equal. f_equal. simpl. lia.
Qed.

Lemma countTransitions_ok N (snapshot : list Z) :
  1 ≤ N ≤ INT_MAX →
  Z.of_nat (length snapshot) = N →
  countTransitions N snapshot = Ok (Z.of_nat (adjacent_differences snapshot)).
Proof.
  intros HN Hlen. unfold countTransitions, for_loop.
  destruct (lookup_lt_is_Some_2 snapshot 0) as [p Hp]; [lia|].
  pose proof (array_get_lookup snapshot 0 p Hp) as Hget.
  change (Z.of_nat 0) with 0 in Hget. rewrite Hget. simpl.
  destruct (count_loop snapshot (Z.to_nat (N - 1)) 1 0 p) as [last Hlast];
    try done; try lia.
  change (Z.of_nat 1) with 1 in Hlast. rewrite Hlast. simpl.
  unfold adjacent_differences.
  by replace (pred (length snapshot)) with (Z.to_nat (N - 1)) by lia.
Qed.

Example adjacent_differences_of_the_sample_window :
  adjacent_differences [1; 1; 0; 0; 1; 1; 0; 1] = 4%nat.
Proof. reflexivity. Qed.

Lemma adjacent_differences_bound (l : list Z) :
  (adjacent_differences l ≤ pred (length l))%nat.
Proof.
  unfold adjacent_differences.
  etrans; [apply length_filter|]. by rewrite length_seq.
Qed.

Lemma adjacent_differences_replicate n (v : Z) :
  adjacent_differences (replicate n v) = 0%nat.
Proof.
  unfold adjacent_differences. rewrite length_replicate.
  match goal with |- length ?f = _ => destruct f as [|i rest] eqn:Hf end; [done|].
  assert (i ∈ i :: rest) as Hi by apply list_elem_of_here.
  rewrite <- Hf in Hi. apply list_elem_of_filter in Hi as [Hne Hi%elem_of_seq].
  destruct Hne. rewrite !lookup_replicate_2; [done|lia..].
Qed.

(** * One insertion, and one iteration of [loop], on a well-formed window *)

Lemma insert_ok N v st :
  1 ≤ N ≤ INT_MAX → window_ok N st → insert N v st = Ok (inserted N v st).
Proof.
  intros HN [Hlen Hidx]. unfold insert, inserted.
  rewrite array_set_in_bounds by lia. simpl.
  rewrite to_int_small by int_range.
  by rewrite Z.rem_mod_nonneg by lia.
Qed.

Lemma inserted_window_ok N v st :
  1 ≤ N → window_ok N st → window_ok N (inserted N v st).
Proof.
  intros HN [Hlen Hidx]. split; simpl.
  - by rewrite length_insert.
  - apply Z.mod_pos_bound. lia.
Qed.

Lemma checkBreathing_ok N (snapshot : list Z) :
  1 ≤ N ≤ INT_MAX →
  Z.of_nat (length snapshot) = N →
  checkBreathing N snapshot = Ok (isPresent (Z.of_nat (adjacent_differences snapshot))).
Proof.
  intros HN Hlen. unfold checkBreathing.
  by rewrite countTransitions_ok.
Qed.

Lemma loop_ok N si r st :
  1 ≤ N ≤ INT_MAX →
  window_ok N st →
  loop N si r st =
    Ok (if evaluationDue (millis_cond r) (lastCheck st) (evaluationPeriod N si)
        then (stamped (millis_store r) (inserted N (radarVal r) st),
              report si
                (isPresent (Z.of_nat (adjacent_differences
                                        (samples (inserted N (radarVal r) st)))))
                (to_int (mapCo2 (co2Raw r))))
        else (inserted N (radarVal r) st, [Delay si])).
Proof.
  intros HN Hok. unfold loop.
  rewrite insert_ok by done. simpl.
  destruct (evaluationDue _ _ _); [|done].
  rewrite (checkBreathing_ok N); [done|done|].
  by destruct (inserted_window_ok N (radarVal r) st) as [? _]; [lia|done|].
Qed.

Lemma loop_window_ok N si r st st' es :
  1 ≤ N ≤ INT_MAX → window_ok N st → loop N si r st = Ok (st', es) → window_ok N st'.
Proof.
  intros HN Hok. rewrite loop_ok by done.
  pose proof (inserted_window_ok N (radarVal r) st) as Hins.
  destruct (evaluationDue _ _ _); intros [= <- <-]; [|apply Hins; [lia|done]].
  destruct Hins as [? ?]; [lia|done|]. by split.
Qed.

Lemma run_loops_ok N si rs : ∀ st,
  1 ≤ N ≤ INT_MAX → window_ok N st →
  ∃ st' es, run_loops N si rs st = Ok (st', es) ∧ window_ok N st'.
Proof.
  induction rs as [|r rs IH]; intros st HN Hok; cbn [run_loops].
  - by exists st, [].
  - destruct (loop N si r st) as [[st1 es1]|] eqn:Hloop.
    + apply loop_window_ok in Hloop as Hok1; [|done..].
      destruct (IH st1 HN Hok1) as (st2 & es2 & Hrun & Hok2).
      cbn [bind]. rewrite Hrun. cbn [bind].
      by exists st2, (es1 ++ es2).
    + by rewrite loop_ok in Hloop.
Qed.

Lemma setup_window_ok N :
  1 ≤ N → window_ok N {| samples := replicate (Z.to_nat N) 1;
                         indexSample := 0; lastCheck := 0 |}.
Proof. intros HN. split; simpl; [rewrite length_replicate|]; lia. Qed.

(** * A full turn of the ring *)

Lemma mod_shift_ne N x d : 0 < d < N → (x + d) mod N ≠ x mod N.
Proof.
  intros Hd Heq.
  assert ((x + d - x) mod N = 0) as H0.
  { by rewrite Zminus_mod, Heq, Z.sub_diag, Zmod_0_l. }
  replace (x + d - x) with d in H0 by lia.
  rewrite Z.mod_small in H0; lia.
Qed.

Lemma insert_all_snoc N vs v : ∀ st,
  insert_all N (vs ++ [v]) st = let* st1 := insert_all N vs st in insert N v st1.
Proof.
  induction vs as [|w vs IH]; intros st; simpl.
  - by destruct (insert N v st).
  - destruct (insert N w st); simpl; [apply IH|done].
Qed.

Lemma insert_all_ok N vs : ∀ st,
  1 ≤ N ≤ INT_MAX →
  window_ok N st →
  ∃ st',
    insert_all N vs st = Ok st'
    ∧ window_ok N st'
    ∧ indexSample st' = (indexSample st + Z.of_nat (length vs)) mod N
    ∧ lastCheck st' = lastCheck st
    ∧ ∀ j : nat, (j < length vs)%nat → Z.of_nat (length vs - j) ≤ N →
        samples st' !! Z.to_nat ((indexSample st + Z.of_nat j) mod N) = vs !! j.
Proof.
  induction vs as [|v vs IH] using rev_ind; intros st HN Hok.
  - exists st. simpl. destruct Hok as [Hlen Hidx].
    split; [done|]. split; [done|]. split; [|split; [done|]].
    + rewrite Z.add_0_r, Z.mod_small; lia.
    + intros j Hj. simpl in Hj. lia.
  - destruct (IH st HN Hok) as (st1 & Hrun & Hok1 & Hidx1 & Hlast1 & Hslots).
    exists (inserted N v st1).
    rewrite insert_all_snoc, Hrun. simpl.
    split; [by apply insert_ok|].
    split; [apply inserted_window_ok; [lia|done]|].
    destruct Hok1 as [Hlen1 Hrange1].
    rewrite length_app. simpl.
    split; [|split; [done|]].
    + rewrite Hidx1, Zplus_mod_idemp_l. f_equal. lia.
    + intros j Hj Hlast.
      destruct (decide (j = length vs)) as [->|Hne].
      * rewrite Hidx1, list_lookup_insert_eq.
        -- by rewrite lookup_app_r, Nat.sub_diag by lia.
        -- pose proof (Z.mod_pos_bound (indexSample st + Z.of_nat (length vs)) N). lia.
      * rewrite list_lookup_insert_ne.
        -- rewrite lookup_app_l by lia. apply Hslots; lia.
        -- rewrite Hidx1. intros Heq. apply Z2Nat.inj in Heq.
           ++ apply (mod_shift_ne N (indexSample st + Z.of_nat j)
                       (Z.of_nat (length vs) - Z.of_nat j)); [lia|].
              rewrite <- Heq. f_equal. lia.
           ++ apply Z.mod_pos_bound. lia.
           ++ apply Z.mod_pos_bound. lia.
Qed.

(** * The serial line *)

Lemma append_empty_r (s : string) : s +:+ EmptyString = s.
Proof.
  induction s as [|c s IH]; [done|].
  change (String c s +:+ EmptyString) with (String c (s +:+ EmptyString)). by rewrite IH.
Qed.

Lemma append_empty_l (s : string) : EmptyString +:+ s = s.
Proof. reflexivity. Qed.

Lemma serial_output_report eol si present n :
  serial_output eol (report si present n)
  = (if present then "HUMAN," else "NO HUMAN,") +:+ pretty n +:+ eol.
Proof.
  unfold report. destruct present; cbn [serial_output app foldr serial_of];
    by rewrite !append_empty_l, !append_empty_r.
Qed.

(** * The claims *)

(** C1. [countTransitions] goes through the stored samples from position
    1 to the end in array order, adds one to its counter exactly at the
    positions whose element differs from the one just before, and returns
    that total: the result is the number of such positions. On
    [1,1,0,0,1,1,0,1] it returns 4, and on a window of any capacity whose
    entries are all equal it returns 0. *)
Theorem countTransitions_adjacent_differences :
  (∀ (N : Z) (snapshot : list Z),
     1 ≤ N ≤ INT_MAX →
     Z.of_nat (length snapshot) = N →
     countTransitions N snapshot = Ok (Z.of_nat (adjacent_differences snapshot)))
  ∧ countTransitions 8 [1; 1; 0; 0; 1; 1; 0; 1] = Ok 4
  ∧ (∀ (N v : Z),
       1 ≤ N ≤ INT_MAX →
       countTransitions N (replicate (Z.to_nat N) v) = Ok 0).
Proof.
  split; [|split].
  - apply countTransitions_ok.
  - reflexivity.
  - intros N v HN.
    rewrite countTransitions_ok by (rewrite ?length_replicate; lia).
    by rewrite adjacent_differences_replicate.
Qed.

Lemma countTransitions_adjacent_differences_witness :
  1 ≤ 5 ≤ INT_MAX
  ∧ Z.of_nat (length [0; 1; 1; 0; 1]) = 5
  ∧ countTransitions 5 [0; 1; 1; 0; 1]
    = Ok (Z.of_nat (adjacent_differences [0; 1; 1; 0; 1])).
Proof.
  split; [int_range|]. split; [reflexivity|].
  apply (proj1 countTransitions_adjacent_differences 5 [0; 1; 1; 0; 1]);
    [int_range | reflexivity].
Defined.

(** C2. The verdict [isPresent t] is true exactly when [3 <= t <= 10],
    both ends included: false at 2, true at 3 and at 10, false at 11. *)
Theorem isPresent_iff_between_3_and_10 :
  (∀ t : Z, isPresent t = true ↔ 3 ≤ t ≤ 10)
  ∧ isPresent 2 = false
  ∧ isPresent 3 = true
  ∧ isPresent 10 = true
  ∧ isPresent 11 = false.
Proof.
  split; [|done].
  intros t. unfold isPresent.
  rewrite andb_true_iff, !bool_decide_eq_true. lia.
Qed.

(** C3, as stated: due exactly when the integer difference
    [now - lastEvaluationTimestamp] exceeds the period. It fails once the
    millisecond clock has wrapped since the last evaluation: stored at
    4294967196, read back as 9950 (10050 ms later), the evaluation is
    due, while the integer difference is negative. *)
Lemma evaluationDue_rollover_counterexample :
  ¬ (evaluationDue 9950 4294967196 10000 = true ↔ 9950 - 4294967196 > 10000).
Proof.
  intros [Hdue _].
  assert (evaluationDue 9950 4294967196 10000 = true) as H by reflexivity.
  apply Hdue in H. lia.
Qed.

(** C3, amended. The gate compares the [unsigned long] difference: it
    is due exactly when [(now - lastEvaluationTimestamp) mod 2^32] is
    strictly greater than the period. Whenever the clock has not wrapped
    between the two timestamps this is [now - lastEvaluationTimestamp >
    periodMillis]; equality is not due: with period 10000 and last
    evaluation at 1000, not due at 11000 and due at 11001. The period of
    the sketch is 10000. *)
Theorem evaluationDue_unsigned_difference :
  (∀ now lastEvaluationTimestamp periodMillis : Z,
     evaluationDue now lastEvaluationTimestamp periodMillis = true
     ↔ (now - lastEvaluationTimestamp) mod 2 ^ 32 > periodMillis)
  ∧ (∀ now lastEvaluationTimestamp periodMillis : Z,
       0 ≤ now - lastEvaluationTimestamp ≤ ULONG_MAX →
       (evaluationDue now lastEvaluationTimestamp periodMillis = true
        ↔ now - lastEvaluationTimestamp > periodMillis))
  ∧ evaluationDue 11000 1000 10000 = false
  ∧ evaluationDue 11001 1000 10000 = true
  ∧ evaluationPeriod Esp32.windowSize Esp32.sampleInterval = 10000.
Proof.
  split; [|split; [|done]].
  - intros now last period. unfold evaluationDue, to_ulong.
    by rewrite bool_decide_eq_true.
  - intros now last period Hrange. unfold evaluationDue.
    rewrite bool_decide_eq_true. by rewrite to_ulong_small.
Qed.

Lemma evaluationDue_unsigned_difference_witness :
  0 ≤ 21001 - 11000 ≤ ULONG_MAX
  ∧ (evaluationDue 21001 11000 10000 = true ↔ 21001 - 11000 > 10000).
Proof.
  split; [int_range|].
  apply (proj1 (proj2 evaluationDue_unsigned_difference) 21001 11000 10000).
  int_range.
Defined.

(** C4. For every integer input the CO2 mapping is
    [400 + rawAdcValue * 1600 / 4095] with the division truncating toward
    zero, with no clamping outside [0, 4095] (399 at -3, 2353 at 5000);
    it is 400 at 0, 2000 at 4095 and 1200 at 2048. *)
Theorem mapCo2_linear_unclamped :
  (∀ rawAdcValue : Z, mapCo2 rawAdcValue = 400 + (rawAdcValue * 1600) `quot` 4095)
  ∧ mapCo2 0 = 400
  ∧ mapCo2 4095 = 2000
  ∧ mapCo2 2048 = 1200
  ∧ mapCo2 (-3) = 399
  ∧ mapCo2 5000 = 2353.
Proof.
  split; [|done].
  intros raw. unfold mapCo2, Arduino.map.
  by rewrite Z.sub_0_r.
Qed.

(** C5. [insert] overwrites the slot at the write cursor and then
    advances the cursor by one modulo the capacity, leaving the length
    of the buffer unchanged. After exactly [capacity] insertions the
    cursor is back where it started and the [j]-th inserted value sits
    at slot [(cursor + j) mod capacity]; starting from the freshly
    initialised buffer, the buffer is exactly the list of inserted
    values, no default entry being left. *)
Theorem insert_overwrites_and_wraps :
  ∀ N : Z, 1 ≤ N ≤ INT_MAX →
    (∀ (value : Z) (st : state), window_ok N st →
       ∃ st', insert N value st = Ok st'
         ∧ samples st' = <[Z.to_nat (indexSample st) := value]> (samples st)
         ∧ samples st' !! Z.to_nat (indexSample st) = Some value
         ∧ indexSample st' = (indexSample st + 1) mod N
         ∧ length (samples st') = length (samples st))
    ∧ (∀ (vs : list Z) (st : state), window_ok N st → Z.of_nat (length vs) = N →
         ∃ st', insert_all N vs st = Ok st'
           ∧ indexSample st' = indexSample st
           ∧ length (samples st') = length (samples st)
           ∧ ∀ j : nat, (j < length vs)%nat →
               samples st' !! Z.to_nat ((indexSample st + Z.of_nat j) mod N) = vs !! j)
    ∧ (∀ vs : list Z, Z.of_nat (length vs) = N →
         ∃ st0, setup N (boot N) = Ok st0
           ∧ insert_all N vs st0
             = Ok {| samples := vs; indexSample := 0; lastCheck := 0 |}).
Proof.
  intros N HN. split; [|split].
  - intros v st Hok. exists (inserted N v st).
    split; [by apply insert_ok|]. simpl.
    destruct Hok as [Hlen Hidx].
    split; [done|]. split; [apply list_lookup_insert_eq; lia|].
    split; [done|apply length_insert].
  - intros vs st Hok Hlen.
    destruct (insert_all_ok N vs st HN Hok)
      as (st' & Hrun & [Hlen' _] & Hidx & _ & Hslots).
    exists st'. destruct Hok as [Hlen0 Hidx0].
    split; [done|]. split; [|split].
    + rewrite Hidx, Hlen.
      rewrite <- (Z.mul_1_l N) at 1. rewrite Z.mod_add by lia.
      apply Z.mod_small. lia.
    + lia.
    + intros j Hj. apply Hslots; lia.
  - intros vs Hlen. eexists. split; [apply setup_boot; lia|].
    pose proof (setup_window_ok N) as Hok.
    destruct (insert_all_ok N vs _ HN (Hok ltac:(lia)))
      as (st' & Hrun & [Hlen' _] & Hidx & Hlast & Hslots).
    rewrite Hrun. f_equal. simpl in *.
    destruct st' as [a c t]. simpl in *. f_equal.
    + apply list_eq. intros k.
      destruct (decide (k < length vs)%nat) as [Hk|Hk].
      * rewrite <- (Hslots k) by lia.
        f_equal. rewrite Z.mod_small; lia.
      * rewrite !lookup_ge_None_2; [done|lia..].
    + rewrite Hidx, Hlen, Z.mod_same; lia.
    + done.
Qed.

Lemma insert_overwrites_and_wraps_witness :
  1 ≤ 3 ≤ INT_MAX
  ∧ Z.of_nat (length [0; 1; 0]) = 3
  ∧ ∃ st0, setup 3 (boot 3) = Ok st0
      ∧ insert_all 3 [0; 1; 0] st0
        = Ok {| samples := [0; 1; 0]; indexSample := 0; lastCheck := 0 |}.
Proof.
  split; [int_range|]. split; [reflexivity|].
  apply (proj2 (proj2 (insert_overwrites_and_wraps 3 ltac:(int_range)))
           [0; 1; 0]).
  reflexivity.
Defined.

(** C6. Right after [setup] the buffer has exactly [capacity] entries,
    all equal to 1; [countTransitions] on it returns 0 and [isPresent 0]
    is false. *)
Theorem setup_all_ones_no_presence :
  ∀ N : Z, 1 ≤ N ≤ INT_MAX →
    ∃ st, setup N (boot N) = Ok st
      ∧ Z.of_nat (length (samples st)) = N
      ∧ samples st = replicate (Z.to_nat N) 1
      ∧ (∀ (i : nat) (v : Z), samples st !! i = Some v → v = 1)
      ∧ countTransitions N (samples st) = Ok 0
      ∧ isPresent 0 = false.
Proof.
  intros N HN. eexists. split; [apply setup_boot; lia|]. simpl.
  split; [rewrite length_replicate; lia|].
  split; [done|].
  split; [by intros i v [-> _]%lookup_replicate|].
  split; [|done].
  rewrite countTransitions_ok by (rewrite ?length_replicate; lia).
  by rewrite adjacent_differences_replicate.
Qed.

Lemma setup_all_ones_no_presence_witness :
  1 ≤ Esp32.windowSize ≤ INT_MAX
  ∧ ∃ st, setup Esp32.windowSize (boot Esp32.windowSize) = Ok st
      ∧ Z.of_nat (length (samples st)) = Esp32.windowSize
      ∧ samples st = replicate (Z.to_nat Esp32.windowSize) 1
      ∧ (∀ (i : nat) (v : Z), samples st !! i = Some v → v = 1)
      ∧ countTransitions Esp32.windowSize (samples st) = Ok 0
      ∧ isPresent 0 = false.
Proof.
  split; [int_range|].
  apply (setup_all_ones_no_presence Esp32.windowSize).
  int_range.
Defined.

(** C7. An iteration of [loop] writes to the serial line exactly when
    the evaluation is due: then the token HUMAN, (presence detected) or
    NO HUMAN, (otherwise), no line terminator after it, followed at once
    by the decimal digits of the CO2 ppm value and the line terminator;
    in every other iteration it writes nothing. On the sketch's window
    of 100: a fresh window reports NO HUMAN,1200 for a raw reading of
    2048, a window with four flips reports HUMAN,1572 for 3000, and
    nothing is written 10000 ms after the last evaluation. *)
Theorem loop_emits_verdict_then_ppm :
  (∀ (N si : Z) (eol : string) (r : readings) (st : state),
     1 ≤ N ≤ INT_MAX →
     window_ok N st →
     ∃ st' es,
       loop N si r st = Ok (st', es)
       ∧ if evaluationDue (millis_cond r) (lastCheck st) (evaluationPeriod N si)
         then ∃ present,
                checkBreathing N (samples st') = Ok present
                ∧ serial_output eol es
                  = (if present then "HUMAN," else "NO HUMAN,")
                    +:+ pretty (to_int (mapCo2 (co2Raw r))) +:+ eol
         else serial_output eol es = EmptyString)
  ∧ (∃ st' es,
       loop Esp32.windowSize Esp32.sampleInterval
         {| radarVal := 0; co2Raw := 2048; millis_cond := 10001; millis_store := 10001 |}
         {| samples := replicate 100 1; indexSample := 0; lastCheck := 0 |}
       = Ok (st', es)
       ∧ serial_output LF es = "NO HUMAN,1200" +:+ LF)
  ∧ (∃ st' es,
       loop Esp32.windowSize Esp32.sampleInterval
         {| radarVal := 1; co2Raw := 3000; millis_cond := 20002; millis_store := 20002 |}
         {| samples := [1; 0; 1; 0] ++ replicate 96 1; indexSample := 4; lastCheck := 10001 |}
       = Ok (st', es)
       ∧ serial_output LF es = "HUMAN,1572" +:+ LF)
  ∧ (∃ st' es,
       loop Esp32.windowSize Esp32.sampleInterval
         {| radarVal := 1; co2Raw := 3000; millis_cond := 20001; millis_store := 20001 |}
         {| samples := [1; 0; 1; 0] ++ replicate 96 1; indexSample := 4; lastCheck := 10001 |}
       = Ok (st', es)
       ∧ serial_output LF es = EmptyString).
Proof.
  split; [|split; [|split]].
  - intros N si eol r st HN Hok.
    rewrite loop_ok by done.
    destruct (evaluationDue _ _ _); eexists _, _; (split; [reflexivity|]); [|done].
    eexists. split.
    + apply checkBreathing_ok; [done|]. simpl.
      rewrite length_insert. apply Hok.
    + apply serial_output_report.
  - eexists _, _. split; vm_compute; reflexivity.
  - eexists _, _. split; vm_compute; reflexivity.
  - eexists _, _. split; vm_compute; reflexivity.
Qed.

Lemma loop_emits_verdict_then_ppm_witness :
  1 ≤ 4 ≤ INT_MAX
  ∧ window_ok 4 {| samples := [1; 0; 1; 1]; indexSample := 3; lastCheck := 500 |}
  ∧ ∃ st' es,
      loop 4 100 {| radarVal := 0; co2Raw := 4095; millis_cond := 901; millis_store := 902 |}
        {| samples := [1; 0; 1; 1]; indexSample := 3; lastCheck := 500 |}
      = Ok (st', es)
      ∧ if evaluationDue 901 500 (evaluationPeriod 4 100)
        then ∃ present,
               checkBreathing 4 (samples st') = Ok present
               ∧ serial_output LF es
                 = (if present then "HUMAN," else "NO HUMAN,")
                   +:+ pretty (to_int (mapCo2 4095)) +:+ LF
        else serial_output LF es = EmptyString.
Proof.
  split; [int_range|].
  split; [split; [reflexivity|simpl; lia]|].
  apply (proj1 loop_emits_verdict_then_ppm 4 100 LF
           {| radarVal := 0; co2Raw := 4095; millis_cond := 901; millis_store := 902 |}
           {| samples := [1; 0; 1; 1]; indexSample := 3; lastCheck := 500 |}).
  - int_range.
  - split; [reflexivity|simpl; lia].
Defined.

(** C8. Every iteration of [loop] keeps the write cursor within
    [0, windowSize) and the window at its length, so no access to
    [samples] is out of bounds: neither the write at the cursor nor any
    read [samples[i]] with [0 <= i < windowSize]; [loop] never returns
    [OutOfBounds], and neither does any run of [setup] followed by any
    number of iterations. *)
Theorem loop_keeps_cursor_in_range :
  ∀ N si : Z, 1 ≤ N ≤ INT_MAX →
    (∀ (r : readings) (st : state), window_ok N st →
       ∃ st' es, loop N si r st = Ok (st', es)
         ∧ window_ok N st'
         ∧ 0 ≤ indexSample st' < N)
    ∧ (∀ (st : state), window_ok N st →
         (∀ v : Z, ∃ a, array_set (samples st) (indexSample st) v = Ok a)
         ∧ (∀ i : Z, 0 ≤ i < N → ∃ v, array_get (samples st) i = Ok v))
    ∧ (∀ rs : list readings,
         ∃ st es, run N si rs = Ok (st, es) ∧ window_ok N st).
Proof.
  intros N si HN. split; [|split].
  - intros r st Hok.
    destruct (loop N si r st) as [[st' es]|] eqn:Hloop.
    + exists st', es. split; [done|].
      apply loop_window_ok in Hloop; [|done..].
      split; [done|apply Hloop].
    + by rewrite loop_ok in Hloop.
  - intros st [Hlen Hidx]. split.
    + intros v. eexists. apply array_set_in_bounds. lia.
    + intros i Hi. destruct (array_get_in_bounds (samples st) i) as (v & Hv & _);
        [lia|by exists v].
  - intros rs. unfold run. rewrite setup_boot by lia. cbn [bind].
    apply run_loops_ok; [done|]. apply setup_window_ok. lia.
Qed.

Lemma loop_keeps_cursor_in_range_witness :
  1 ≤ Esp32.windowSize ≤ INT_MAX
  ∧ ∃ st es,
      run Esp32.windowSize Esp32.sampleInterval
        [ {| radarVal := 0; co2Raw := 0; millis_cond := 3; millis_store := 3 |};
          {| radarVal := 1; co2Raw := 9; millis_cond := 10104; millis_store := 10104 |} ]
      = Ok (st, es)
      ∧ window_ok Esp32.windowSize st.
Proof.
  split; [int_range|].
  apply (proj2 (proj2 (loop_keeps_cursor_in_range
                         Esp32.windowSize Esp32.sampleInterval
                         ltac:(int_range)))).
Defined.

(** C9. On a buffer of capacity [N >= 1], whatever it holds,
    [countTransitions] returns a count between 0 and [N - 1]; with the
    sketch's window of 100 the count is at most 99. *)
Theorem countTransitions_at_most_capacity_minus_1 :
  (∀ (N : Z) (snapshot : list Z),
     1 ≤ N ≤ INT_MAX →
     Z.of_nat (length snapshot) = N →
     ∃ t, countTransitions N snapshot = Ok t ∧ 0 ≤ t ≤ N - 1)
  ∧ (∀ snapshot : list Z,
       Z.of_nat (length snapshot) = Esp32.windowSize →
       ∃ t, countTransitions Esp32.windowSize snapshot = Ok t ∧ 0 ≤ t ≤ 99).
Proof.
  assert (∀ (N : Z) (snapshot : list Z),
            1 ≤ N ≤ INT_MAX → Z.of_nat (length snapshot) = N →
            ∃ t, countTransitions N snapshot = Ok t ∧ 0 ≤ t ≤ N - 1) as Hbound.
  { intros N snapshot HN Hlen. eexists. split; [by apply countTransitions_ok|].
    pose proof (adjacent_differences_bound snapshot). lia. }
  split; [done|].
  intros snapshot Hlen.
  apply (Hbound Esp32.windowSize snapshot); [|done].
  int_range.
Qed.

Lemma countTransitions_at_most_capacity_minus_1_witness :
  1 ≤ 4 ≤ INT_MAX
  ∧ Z.of_nat (length [0; 1; 0; 1]) = 4
  ∧ ∃ t, countTransitions 4 [0; 1; 0; 1] = Ok t ∧ 0 ≤ t ≤ 4 - 1.
Proof.
  split; [int_range|]. split; [reflexivity|].
  apply (proj1 countTransitions_at_most_capacity_minus_1 4 [0; 1; 0; 1]);
    [int_range|reflexivity].
Defined.

(** C10. The CO2 mapping never decreases when its input grows, and for
    a raw reading between 0 and 4095 its result is between 400 and
    2000. *)
Theorem mapCo2_monotone_in_range :
  (∀ a b : Z, a ≤ b → mapCo2 a ≤ mapCo2 b)
  ∧ (∀ rawAdcValue : Z, 0 ≤ rawAdcValue ≤ 4095 → 400 ≤ mapCo2 rawAdcValue ≤ 2000).
Proof.
  assert (∀ a b : Z, a ≤ b → mapCo2 a ≤ mapCo2 b) as Hmono.
  { intros a b Hab. unfold mapCo2, Arduino.map.
    apply Z.add_le_mono_l, Z.quot_le_mono; lia. }
  split; [done|].
  intros raw Hraw. split.
  - change 400 with (mapCo2 0) at 1. apply Hmono. lia.
  - change 2000 with (mapCo2 4095). apply Hmono. lia.
Qed.

Lemma mapCo2_monotone_in_range_witness :
  0 ≤ 2048 ≤ 4095 ∧ 400 ≤ mapCo2 2048 ≤ 2000.
Proof.
  split; [lia|].
  apply (proj2 mapCo2_monotone_in_range 2048). lia.
Defined.

(** * Adjacent differences, list by list *)

Lemma differences_shift (x : Z) (l : list Z) n : ∀ k : nat,
  (1 ≤ k)%nat →
  length (filter (λ i, (x :: l) !! i ≠ (x :: l) !! pred i) (seq (S k) n))
  = length (filter (λ i, l !! i ≠ l !! pred i) (seq k n)).
Proof.
  induction n as [|n IH]; intros k Hk; [done|].
  cbn [seq]. rewrite !filter_cons.
  destruct k as [|k]; [lia|]. cbn [lookup list_lookup pred].
  specialize (IH (S (S k)) ltac:(lia)). cbn [seq] in IH.
  destruct (decide (l !! S k ≠ l !! k)); simpl; by rewrite IH.
Qed.

Lemma adjacent_differences_flips (l : list Z) : adjacent_differences l = flips l.
Proof.
  induction l as [|x l IH]; [done|].
  destruct l as [|y t]; [done|].
  cbn [flips head] in *. rewrite <- IH.
  unfold adjacent_differences. cbn [length pred seq].
  rewrite filter_cons. cbn [lookup list_lookup pred seam].
  pose proof (differences_shift x (y :: t) (length t) 1 ltac:(lia)) as Hshift.
  destruct (decide (y = x)) as [->|Hne].
  - rewrite bool_decide_eq_false_2, decide_False by naive_solver.
    by rewrite Hshift.
  - rewrite bool_decide_eq_true_2, decide_True by congruence.
    cbn [length]. by rewrite Hshift.
Qed.

Lemma seam_le_1 a b : (seam a b ≤ 1)%nat.
Proof. destruct a, b; simpl; try lia. case_bool_decide; lia. Qed.

Lemma flips_app (l1 l2 : list Z) :
  flips (l1 ++ l2) = (flips l1 + seam (last l1) (head l2) + flips l2)%nat.
Proof.
  induction l1 as [|x l1 IH]; [done|].
  cbn [app flips]. rewrite IH.
  destruct l1 as [|y l1]; [simpl; lia|].
  cbn [app head]. rewrite (last_cons x (y :: l1)).
  destruct (last (y :: l1)) eqn:Hlast; [lia|].
  by apply last_None in Hlast.
Qed.

Lemma flips_fmap (f : Z → Z) `{!Inj (=) (=) f} (l : list Z) :
  flips (f <$> l) = flips l.
Proof.
  induction l as [|x l IH]; [done|].
  cbn [fmap list_fmap flips]. fold (fmap f l). rewrite IH. f_equal.
  destruct l as [|y l]; [done|]. simpl.
  destruct (decide (y = x)) as [->|Hne].
  - by rewrite !bool_decide_eq_false_2 by naive_solver.
  - rewrite !bool_decide_eq_true_2; [done..|]. by intros ?%(inj f).
Qed.

Lemma flips_zero (l : list Z) : ∀ x,
  flips (x :: l) = 0%nat → x :: l = replicate (S (length l)) x.
Proof.
  induction l as [|y l IH]; intros x Hx; [done|].
  cbn [flips head seam] in Hx. fold (flips (y :: l)) in Hx.
  case_bool_decide as Hne; [lia|].
  assert (y = x) as -> by (destruct (decide (y = x)); [done|naive_solver]).
  cbn [length replicate]. f_equal. apply IH. simpl in *. lia.
Qed.

Lemma flips_all_differ (l : list Z) :
  (∀ i : nat, (S i < length l)%nat → l !! S i ≠ l !! i) →
  flips l = pred (length l).
Proof.
  induction l as [|x l IH]; intros Hdiff; [done|].
  destruct l as [|y l]; [done|].
  change (flips (x :: y :: l)) with (seam (Some x) (Some y) + flips (y :: l))%nat.
  rewrite IH.
  - cbn [seam]. rewrite bool_decide_eq_true_2; [simpl; lia|].
    intros ->. by apply (Hdiff 0%nat); [simpl; lia|].
  - intros i Hi. apply (Hdiff (S i)). simpl in *. lia.
Qed.

(** * The window in arrival order *)

Lemma length_arrival_order st : length (arrival_order st) = length (samples st).
Proof.
  unfold arrival_order. rewrite length_app, length_drop, length_take. lia.
Qed.

Lemma arrival_order_inserted N v st :
  1 ≤ N → window_ok N st →
  arrival_order (inserted N v st) = drop 1 (arrival_order st ++ [v]).
Proof.
  intros HN [Hlen Hidx]. unfold arrival_order, inserted. cbn [samples indexSample].
  set (c := Z.to_nat (indexSample st)).
  destruct (lookup_lt_is_Some_2 (samples st) c) as [x Hx]; [lia|].
  rewrite insert_take_drop by lia.
  rewrite (drop_S _ x c Hx). cbn [app drop]. rewrite drop_0.
  assert (length (take c (samples st)) = c) as Htake
    by (rewrite length_take; lia).
  destruct (decide (indexSample st + 1 < N)) as [Hlt|Hge].
  - rewrite Z.mod_small by lia.
    replace (Z.to_nat (indexSample st + 1)) with (S c) by lia.
    rewrite (cons_middle v), (assoc_L (++)).
    rewrite drop_app_length', take_app_length'
      by (rewrite length_app; simpl; lia).
    by rewrite <- (assoc_L (++)).
  - replace (indexSample st + 1) with N by lia.
    rewrite Z.mod_same by lia. cbn [Z.to_nat drop take].
    rewrite (drop_ge _ (S c)) by lia.
    by rewrite app_nil_r.
Qed.

Lemma arrival_order_insert_all N vs : ∀ st,
  1 ≤ N ≤ INT_MAX →
  window_ok N st →
  ∃ st',
    insert_all N vs st = Ok st'
    ∧ window_ok N st'
    ∧ lastCheck st' = lastCheck st
    ∧ arrival_order st' = drop (length vs) (arrival_order st ++ vs).
Proof.
  induction vs as [|v vs IH]; intros st HN Hok.
  - exists st. cbn [insert_all length drop]. by rewrite app_nil_r.
  - cbn [insert_all]. rewrite insert_ok by done. cbn [bind].
    destruct (IH (inserted N v st) HN) as (st' & Hrun & Hok' & Hlast & Harr);
      [apply inserted_window_ok; [lia|done]|].
    exists st'. split; [done|]. split; [done|]. split; [done|].
    rewrite Harr, arrival_order_inserted by (done || lia).
    rewrite <- drop_app_le by (rewrite length_app; simpl; lia).
    rewrite drop_drop, <- (assoc_L (++)). done.
Qed.

(** * Samples that are 0 or 1 *)

Lemma seam_binary_parity x y z :
  binary x → binary y → binary z →
  ∃ k : nat, (seam (Some x) (Some y) + seam (Some z) (Some x)
              = seam (Some z) (Some y) + 2 * k)%nat.
Proof.
  unfold binary, Arduino.LOW, Arduino.HIGH.
  intros [-> | ->] [-> | ->] [-> | ->]; simpl;
    (by exists 0%nat) || (by exists 1%nat).
Qed.

(** Going once round a ring of binary samples, the level changes an
    even number of times. *)
Lemma flips_round_even (l : list Z) :
  Forall binary l →
  ∃ k : nat, (flips l + seam (last l) (head l) = 2 * k)%nat.
Proof.
  induction l as [|x l IH]; intros Hbin; [by exists 0%nat|].
  apply Forall_cons in Hbin as [Hx Hl].
  destruct l as [|y l].
  - exists 0%nat. simpl. by case_bool_decide.
  - destruct (IH Hl) as [k Hk].
    pose proof Hl as [Hy _]%Forall_cons.
    rewrite (last_cons x (y :: l)).
    destruct (last (y :: l)) as [z|] eqn:Hlast; [|by apply last_None in Hlast].
    assert (binary z) as Hz.
    { apply (Forall_forall binary (y :: l)); [done|].
      apply last_Some_elem_of. done. }
    destruct (seam_binary_parity x y z Hx Hy Hz) as [j Hj].
    change (flips (x :: y :: l)) with (seam (Some x) (Some y) + flips (y :: l))%nat.
    cbn [head] in *. exists (k + j)%nat. lia.
Qed.

(** * What an iteration writes, and when *)

Lemma isPresent_between t : isPresent t = bool_decide (3 ≤ t ≤ 10).
Proof. unfold isPresent. repeat case_bool_decide; simpl; try done; lia. Qed.

Lemma digital_writes_report si present n :
  digital_writes (report si present n)
  = [(ledPin, if present then Arduino.HIGH else Arduino.LOW)].
Proof. by destruct present. Qed.

Lemma last_report si present n : last (report si present n) = Some (Delay si).
Proof. by destruct present. Qed.

Lemma evaluationPeriod_range N si : 0 ≤ evaluationPeriod N si ≤ ULONG_MAX.
Proof.
  unfold evaluationPeriod, to_ulong, ULONG_MAX.
  pose proof (Z.mod_pos_bound (to_int (N * si)) (2 ^ 32)). lia.
Qed.

Lemma not_due_within_period now last period :
  0 ≤ now - last ≤ period → period ≤ ULONG_MAX →
  evaluationDue now last period = false.
Proof.
  intros Hnow Hperiod. unfold evaluationDue.
  rewrite to_ulong_small by lia. apply bool_decide_eq_false_2. lia.
Qed.

Lemma run_loops_quiet N si rs : ∀ st,
  1 ≤ N ≤ INT_MAX →
  window_ok N st →
  Forall (λ r, evaluationDue (millis_cond r) (lastCheck st) (evaluationPeriod N si)
               = false) rs →
  run_loops N si rs st
  = let* st' := insert_all N (radarVal <$> rs) st in
    Ok (st', replicate (length rs) (Delay si)).
Proof.
  induction rs as [|r rs IH]; intros st HN Hok Hquiet; [done|].
  apply Forall_cons in Hquiet as [Hr Hrs].
  cbn [run_loops fmap list_fmap insert_all length replicate].
  rewrite loop_ok, Hr, insert_ok by done. cbn [bind].
  rewrite IH; [|done|apply inserted_window_ok; [lia|done]|done].
  by destruct (insert_all N _ _).
Qed.

(** X1. In an iteration of [loop] the LED is written only when the
    evaluation is due, once, on [ledPin]: HIGH when the window, with the
    sample just read already stored, has between 3 and 10 transitions,
    and LOW otherwise, in agreement with the token on the serial line.
    Otherwise no pin is written. Every iteration ends with the delay of
    [sampleInterval]. *)
Theorem loop_led_follows_verdict :
  ∀ (N si : Z) (eol : string) (r : readings) (st : state),
    1 ≤ N ≤ INT_MAX →
    window_ok N st →
    ∃ st' es t,
      loop N si r st = Ok (st', es)
      ∧ samples st' = <[Z.to_nat (indexSample st) := radarVal r]> (samples st)
      ∧ countTransitions N (samples st') = Ok t
      ∧ last es = Some (Delay si)
      ∧ if evaluationDue (millis_cond r) (lastCheck st) (evaluationPeriod N si)
        then digital_writes es
             = [(ledPin, if bool_decide (3 ≤ t ≤ 10)
                         then Arduino.HIGH else Arduino.LOW)]
             ∧ serial_output eol es
               = (if bool_decide (3 ≤ t ≤ 10) then "HUMAN," else "NO HUMAN,")
                 +:+ pretty (to_int (mapCo2 (co2Raw r))) +:+ eol
        else digital_writes es = [] ∧ serial_output eol es = EmptyString.
Proof.
  intros N si eol r st HN Hok.
  rewrite loop_ok by done.
  pose proof (inserted_window_ok N (radarVal r) st ltac:(lia) Hok) as [Hlen _].
  pose proof (countTransitions_ok N _ HN Hlen) as Hcount.
  destruct (evaluationDue _ _ _); eexists _, _, _;
    (split; [reflexivity|]); (split; [reflexivity|]); (split; [exact Hcount|]).
  - split; [apply last_report|].
    rewrite digital_writes_report, serial_output_report, isPresent_between.
    done.
  - done.
Qed.

Lemma loop_led_follows_verdict_witness :
  1 ≤ 4 ≤ INT_MAX
  ∧ window_ok 4 {| samples := [1; 0; 1; 1]; indexSample := 3; lastCheck := 500 |}
  ∧ ∃ st' es t,
      loop 4 100 {| radarVal := 0; co2Raw := 4095; millis_cond := 901; millis_store := 902 |}
        {| samples := [1; 0; 1; 1]; indexSample := 3; lastCheck := 500 |}
      = Ok (st', es)
      ∧ samples st' = <[3%nat := 0]> [1; 0; 1; 1]
      ∧ countTransitions 4 (samples st') = Ok t
      ∧ last es = Some (Delay 100)
      ∧ if evaluationDue 901 500 (evaluationPeriod 4 100)
        then digital_writes es
             = [(ledPin, if bool_decide (3 ≤ t ≤ 10)
                         then Arduino.HIGH else Arduino.LOW)]
             ∧ serial_output LF es
               = (if bool_decide (3 ≤ t ≤ 10) then "HUMAN," else "NO HUMAN,")
                 +:+ pretty (to_int (mapCo2 4095)) +:+ LF
        else digital_writes es = [] ∧ serial_output LF es = EmptyString.
Proof.
  split; [int_range|].
  split; [split; [reflexivity|simpl; lia]|].
  apply (loop_led_follows_verdict 4 100 LF
           {| radarVal := 0; co2Raw := 4095; millis_cond := 901; millis_store := 902 |}
           {| samples := [1; 0; 1; 1]; indexSample := 3; lastCheck := 500 |}).
  - int_range.
  - split; [reflexivity|simpl; lia].
Defined.

(** X2. An iteration in which the evaluation is due stores the clock
    in [lastCheck]; any other iteration leaves [lastCheck] as it was.
    After a due iteration, an iteration whose clock is at most the
    evaluation period later reports nothing: it only stores its sample
    and waits. *)
Theorem loop_stamps_then_waits :
  ∀ (N si : Z) (r1 r2 : readings) (st : state),
    1 ≤ N ≤ INT_MAX →
    window_ok N st →
    0 ≤ millis_store r1 ≤ ULONG_MAX →
    ∃ st1 es1,
      loop N si r1 st = Ok (st1, es1)
      ∧ lastCheck st1
        = (if evaluationDue (millis_cond r1) (lastCheck st) (evaluationPeriod N si)
           then millis_store r1 else lastCheck st)
      ∧ (evaluationDue (millis_cond r1) (lastCheck st) (evaluationPeriod N si) = true →
         0 ≤ millis_cond r2 - millis_store r1 ≤ evaluationPeriod N si →
         ∃ st2, loop N si r2 st1 = Ok (st2, [Delay si])
           ∧ lastCheck st2 = millis_store r1).
Proof.
  intros N si r1 r2 st HN Hok Hstore.
  rewrite loop_ok by done.
  pose proof (inserted_window_ok N (radarVal r1) st ltac:(lia) Hok) as Hok1.
  destruct (evaluationDue (millis_cond r1) _ _); eexists _, _;
    (split; [reflexivity|]).
  - cbn [stamped lastCheck]. rewrite to_ulong_small by done.
    split; [done|]. intros _ Hnear.
    rewrite loop_ok by (done || by destruct Hok1).
    cbn [stamped lastCheck inserted]. rewrite to_ulong_small by done.
    rewrite not_due_within_period by (done || apply evaluationPeriod_range).
    eexists. split; [reflexivity|]. simpl. by rewrite to_ulong_small.
  - split; [done|]. intros Hdue. discriminate.
Qed.

Lemma loop_stamps_then_waits_witness :
  ∃ st1 es1 st2,
    loop 4 100 {| radarVal := 0; co2Raw := 0; millis_cond := 401; millis_store := 402 |}
      {| samples := [1; 1; 1; 1]; indexSample := 0; lastCheck := 0 |}
    = Ok (st1, es1)
    ∧ lastCheck st1 = 402
    ∧ loop 4 100 {| radarVal := 1; co2Raw := 0; millis_cond := 802; millis_store := 802 |} st1
      = Ok (st2, [Delay 100])
    ∧ lastCheck st2 = 402.
Proof.
  destruct (loop_stamps_then_waits 4 100
              {| radarVal := 0; co2Raw := 0; millis_cond := 401; millis_store := 402 |}
              {| radarVal := 1; co2Raw := 0; millis_cond := 802; millis_store := 802 |}
              {| samples := [1; 1; 1; 1]; indexSample := 0; lastCheck := 0 |})
    as (st1 & es1 & Hloop & Hstamp & Hnext).
  - int_range.
  - split; [reflexivity|simpl; lia].
  - simpl. int_range.
  - destruct Hnext as (st2 & Hloop2 & Hstamp2).
    + reflexivity.
    + vm_compute. split; discriminate.
    + exists st1, es1, st2. repeat split; assumption.
Defined.

(** X3. The gate measures elapsed time across a wrap of the 32-bit
    millisecond clock: when the clock read [elapsed] milliseconds after
    [lastCheck] was stored, with [elapsed] below 2^32, the evaluation is
    due exactly when [elapsed] exceeds the period, wherever the counter
    wrapped in between. *)
Theorem evaluationDue_measures_elapsed_time :
  ∀ lastEvaluationTimestamp elapsed periodMillis : Z,
    0 ≤ elapsed ≤ ULONG_MAX →
    (evaluationDue (to_ulong (lastEvaluationTimestamp + elapsed))
       lastEvaluationTimestamp periodMillis = true
     ↔ elapsed > periodMillis).
Proof.
  intros last elapsed period Helapsed. unfold evaluationDue.
  rewrite bool_decide_eq_true. unfold to_ulong.
  rewrite Zminus_mod_idemp_l.
  replace (last + elapsed - last) with elapsed by lia.
  rewrite Z.mod_small by int_range. done.
Qed.

Lemma evaluationDue_measures_elapsed_time_witness :
  0 ≤ 10050 ≤ ULONG_MAX
  ∧ (evaluationDue (to_ulong (4294967196 + 10050)) 4294967196 10000 = true
     ↔ 10050 > 10000).
Proof.
  split; [int_range|].
  apply (evaluationDue_measures_elapsed_time 4294967196 10050 10000).
  int_range.
Defined.

(** X4. As long as no evaluation is due the sketch is silent: a run of
    iterations none of which is due relative to the stored [lastCheck]
    writes nothing but one delay per iteration, leaves [lastCheck]
    untouched, and its final window is the one obtained by inserting the
    radar readings in turn. In particular nothing is reported after
    start-up while the clock is within the first evaluation period. *)
Theorem run_silent_until_due :
  ∀ N si : Z, 1 ≤ N ≤ INT_MAX →
    (∀ (rs : list readings) (st : state),
       window_ok N st →
       Forall (λ r, evaluationDue (millis_cond r) (lastCheck st)
                      (evaluationPeriod N si) = false) rs →
       ∃ st', run_loops N si rs st = Ok (st', replicate (length rs) (Delay si))
         ∧ insert_all N (radarVal <$> rs) st = Ok st'
         ∧ lastCheck st' = lastCheck st)
    ∧ (∀ rs : list readings,
         Forall (λ r, 0 ≤ millis_cond r ≤ evaluationPeriod N si) rs →
         ∃ st', run N si rs = Ok (st', replicate (length rs) (Delay si))
           ∧ lastCheck st' = 0).
Proof.
  intros N si HN.
  assert (∀ (rs : list readings) (st : state),
            window_ok N st →
            Forall (λ r, evaluationDue (millis_cond r) (lastCheck st)
                           (evaluationPeriod N si) = false) rs →
            ∃ st', run_loops N si rs st = Ok (st', replicate (length rs) (Delay si))
              ∧ insert_all N (radarVal <$> rs) st = Ok st'
              ∧ lastCheck st' = lastCheck st) as Hquiet.
  { intros rs st Hok Hrs.
    rewrite run_loops_quiet by done.
    destruct (arrival_order_insert_all N (radarVal <$> rs) st HN Hok)
      as (st' & Hrun & _ & Hlast & _).
    exists st'. by rewrite Hrun. }
  split; [done|].
  intros rs Hrs. unfold run. rewrite setup_boot by lia. cbn [bind].
  destruct (Hquiet rs {| samples := replicate (Z.to_nat N) 1;
                         indexSample := 0; lastCheck := 0 |})
    as (st' & Hrun & _ & Hlast).
  - apply setup_window_ok. lia.
  - eapply Forall_impl; [done|]. intros r Hr. cbn beta in Hr. cbn [lastCheck].
    apply not_due_within_period; [lia|apply evaluationPeriod_range].
  - by exists st'.
Qed.

Lemma run_silent_until_due_witness :
  1 ≤ Esp32.windowSize ≤ INT_MAX
  ∧ ∃ st',
      run Esp32.windowSize Esp32.sampleInterval
        [ {| radarVal := 0; co2Raw := 7; millis_cond := 0; millis_store := 0 |};
          {| radarVal := 1; co2Raw := 7; millis_cond := 10000; millis_store := 10000 |} ]
      = Ok (st', replicate 2 (Delay Esp32.sampleInterval))
      ∧ lastCheck st' = 0.
Proof.
  split; [int_range|].
  apply (proj2 (run_silent_until_due Esp32.windowSize Esp32.sampleInterval
                  ltac:(int_range))
           [ {| radarVal := 0; co2Raw := 7; millis_cond := 0; millis_store := 0 |};
             {| radarVal := 1; co2Raw := 7; millis_cond := 10000; millis_store := 10000 |} ]).
  repeat constructor; vm_compute; discriminate.
Defined.

(** X5. The window is a first-in first-out record of the last
    [windowSize] samples: after any number of insertions the samples in
    arrival order are the old ones followed by the inserted ones, with
    as many dropped from the front as were inserted; once at least
    [windowSize] values have been inserted these are exactly the last
    [windowSize] of them. *)
Theorem window_is_fifo_of_latest_samples :
  ∀ (N : Z) (vs : list Z) (st : state),
    1 ≤ N ≤ INT_MAX →
    window_ok N st →
    ∃ st',
      insert_all N vs st = Ok st'
      ∧ window_ok N st'
      ∧ arrival_order st' = drop (length vs) (arrival_order st ++ vs)
      ∧ (N ≤ Z.of_nat (length vs) →
         arrival_order st' = drop (length vs - Z.to_nat N) vs).
Proof.
  intros N vs st HN Hok.
  destruct (arrival_order_insert_all N vs st HN Hok)
    as (st' & Hrun & Hok' & _ & Harr).
  exists st'. split; [done|]. split; [done|]. split; [done|].
  intros Hfull. rewrite Harr.
  rewrite drop_app_ge by (rewrite length_arrival_order; destruct Hok; lia).
  rewrite length_arrival_order. f_equal. destruct Hok. lia.
Qed.

Lemma window_is_fifo_of_latest_samples_witness :
  1 ≤ 3 ≤ INT_MAX
  ∧ window_ok 3 {| samples := [1; 1; 1]; indexSample := 2; lastCheck := 0 |}
  ∧ ∃ st',
      insert_all 3 [0; 1; 0; 0; 1] {| samples := [1; 1; 1]; indexSample := 2; lastCheck := 0 |}
      = Ok st'
      ∧ arrival_order st' = [0; 0; 1].
Proof.
  split; [int_range|].
  split; [split; [reflexivity|simpl; lia]|].
  destruct (window_is_fifo_of_latest_samples 3 [0; 1; 0; 0; 1]
              {| samples := [1; 1; 1]; indexSample := 2; lastCheck := 0 |})
    as (st' & Hrun & _ & _ & Hlatest).
  - int_range.
  - split; [reflexivity|simpl; lia].
  - exists st'. split; [exact Hrun|]. apply Hlatest. simpl. lia.
Defined.

(** X6. [countTransitions] returns 0 exactly on the windows whose
    entries are all the same value: a sensor stuck at one level is the
    only way to count no transition. *)
Theorem countTransitions_zero_iff_constant :
  ∀ (N : Z) (snapshot : list Z),
    1 ≤ N ≤ INT_MAX →
    Z.of_nat (length snapshot) = N →
    (countTransitions N snapshot = Ok 0
     ↔ ∃ v, snapshot = replicate (Z.to_nat N) v).
Proof.
  intros N l HN Hlen. rewrite countTransitions_ok by done. split.
  - intros [= Hzero].
    destruct l as [|x l]; [simpl in Hlen; lia|].
    exists x. rewrite adjacent_differences_flips in Hzero.
    rewrite (flips_zero l x) at 1 by lia.
    f_equal. simpl in Hlen. lia.
  - intros [v ->]. by rewrite adjacent_differences_replicate.
Qed.

Lemma countTransitions_zero_iff_constant_witness :
  1 ≤ 4 ≤ INT_MAX
  ∧ Z.of_nat (length [0; 0; 0; 0]) = 4
  ∧ (countTransitions 4 [0; 0; 0; 0] = Ok 0
     ↔ ∃ v, [0; 0; 0; 0] = replicate (Z.to_nat 4) v).
Proof.
  split; [int_range|]. split; [reflexivity|].
  apply (countTransitions_zero_iff_constant 4 [0; 0; 0; 0]);
    [int_range|reflexivity].
Defined.

(** X7. Only the changes of level count, not the levels: renaming the
    sample values by any one-to-one function, such as swapping 0 and 1
    for a sensor of the opposite polarity, changes neither the
    transition count nor the verdict. *)
Theorem countTransitions_ignores_polarity :
  ∀ (N : Z) (f : Z → Z) (snapshot : list Z),
    Inj (=) (=) f →
    1 ≤ N ≤ INT_MAX →
    Z.of_nat (length snapshot) = N →
    countTransitions N (f <$> snapshot) = countTransitions N snapshot
    ∧ checkBreathing N (f <$> snapshot) = checkBreathing N snapshot.
Proof.
  intros N f l Hinj HN Hlen.
  assert (countTransitions N (f <$> l) = countTransitions N l) as Hcount.
  { rewrite !countTransitions_ok by (rewrite ?length_fmap; done).
    by rewrite !adjacent_differences_flips, flips_fmap. }
  split; [done|]. unfold checkBreathing. by rewrite Hcount.
Qed.

Lemma countTransitions_ignores_polarity_witness :
  countTransitions 5 ((λ v, 1 - v) <$> [1; 0; 0; 1; 0]) = countTransitions 5 [1; 0; 0; 1; 0]
  ∧ checkBreathing 5 ((λ v, 1 - v) <$> [1; 0; 0; 1; 0]) = checkBreathing 5 [1; 0; 0; 1; 0].
Proof.
  apply (countTransitions_ignores_polarity 5 (λ v, 1 - v) [1; 0; 0; 1; 0]).
  - intros x y Hxy. lia.
  - int_range.
  - reflexivity.
Defined.

(** X8. Storing one sample changes the transition count by at most 2,
    whatever the value and wherever the cursor is: only the two pairs
    around the overwritten slot can change. *)
Theorem insert_moves_count_by_at_most_2 :
  ∀ (N value : Z) (st : state),
    1 ≤ N ≤ INT_MAX →
    window_ok N st →
    ∃ st' t t',
      insert N value st = Ok st'
      ∧ countTransitions N (samples st) = Ok t
      ∧ countTransitions N (samples st') = Ok t'
      ∧ -2 ≤ t' - t ≤ 2.
Proof.
  intros N v st HN Hok.
  pose proof (inserted_window_ok N v st ltac:(lia) Hok) as [Hlen' _].
  destruct Hok as [Hlen Hidx].
  eexists _, _, _.
  split; [by apply insert_ok|].
  split; [by apply countTransitions_ok|].
  split; [by apply countTransitions_ok|].
  rewrite !adjacent_differences_flips. cbn [inserted samples].
  set (c := Z.to_nat (indexSample st)).
  destruct (lookup_lt_is_Some_2 (samples st) c) as [x Hx]; [lia|].
  rewrite insert_take_drop by lia.
  assert (flips (samples st)
          = flips (take c (samples st) ++ x :: drop (S c) (samples st))) as ->
    by (by rewrite take_drop_middle).
  rewrite !flips_app. cbn [flips head].
  pose proof (seam_le_1 (last (take c (samples st))) (Some v)).
  pose proof (seam_le_1 (last (take c (samples st))) (Some x)).
  pose proof (seam_le_1 (Some v) (head (drop (S c) (samples st)))).
  pose proof (seam_le_1 (Some x) (head (drop (S c) (samples st)))).
  lia.
Qed.

Lemma insert_moves_count_by_at_most_2_witness :
  1 ≤ 5 ≤ INT_MAX
  ∧ window_ok 5 {| samples := [1; 1; 1; 1; 1]; indexSample := 2; lastCheck := 0 |}
  ∧ ∃ st' t t',
      insert 5 0 {| samples := [1; 1; 1; 1; 1]; indexSample := 2; lastCheck := 0 |} = Ok st'
      ∧ countTransitions 5 [1; 1; 1; 1; 1] = Ok t
      ∧ countTransitions 5 (samples st') = Ok t'
      ∧ -2 ≤ t' - t ≤ 2.
Proof.
  split; [int_range|].
  split; [split; [reflexivity|simpl; lia]|].
  apply (insert_moves_count_by_at_most_2 5 0
           {| samples := [1; 1; 1; 1; 1]; indexSample := 2; lastCheck := 0 |}).
  - int_range.
  - split; [reflexivity|simpl; lia].
Defined.

(** * Storage order against arrival order *)

Lemma flips_rotate_near (l1 l2 : list Z) :
  -1 ≤ Z.of_nat (flips (l2 ++ l1)) - Z.of_nat (flips (l1 ++ l2)) ≤ 1.
Proof.
  rewrite !flips_app.
  pose proof (seam_le_1 (last l1) (head l2)).
  pose proof (seam_le_1 (last l2) (head l1)).
  lia.
Qed.

Lemma flips_rotate_binary (l1 l2 : list Z) :
  Forall binary (l1 ++ l2) →
  isPresent (Z.of_nat (flips (l2 ++ l1))) = isPresent (Z.of_nat (flips (l1 ++ l2))).
Proof.
  intros Hbin.
  destruct l1 as [|a l1]; [by rewrite app_nil_r|].
  destruct l2 as [|b l2]; [by rewrite app_nil_r|].
  destruct (flips_round_even _ Hbin) as [k Hk].
  rewrite last_app in Hk.
  destruct (last (b :: l2)) as [z|] eqn:Hlast; [|by apply last_None in Hlast].
  rewrite !flips_app, Hlast. rewrite flips_app in Hk.
  cbn [app head] in *.
  pose proof (seam_le_1 (last (a :: l1)) (Some b)).
  pose proof (seam_le_1 (Some z) (Some a)).
  rewrite !isPresent_between. apply bool_decide_ext. lia.
Qed.

Lemma run_loops_binary N si rs : ∀ st,
  1 ≤ N ≤ INT_MAX →
  window_ok N st →
  Forall binary (samples st) →
  Forall (λ r, binary (radarVal r)) rs →
  ∃ st' es, run_loops N si rs st = Ok (st', es)
    ∧ window_ok N st'
    ∧ Forall binary (samples st').
Proof.
  induction rs as [|r rs IH]; intros st HN Hok Hbin Hrs.
  - by exists st, [].
  - apply Forall_cons in Hrs as [Hr Hrs]. cbn [run_loops].
    rewrite loop_ok by done.
    pose proof (inserted_window_ok N (radarVal r) st ltac:(lia) Hok) as Hok1.
    assert (Forall binary (samples (inserted N (radarVal r) st))) as Hbin1
      by (by apply Forall_insert).
    destruct (evaluationDue _ _ _); cbn [bind].
    + destruct (IH (stamped (millis_store r) (inserted N (radarVal r) st)))
        as (st' & es & -> & Hok' & Hbin'); [done|by destruct Hok1|done..|].
      cbn [bind]. by eexists _, _.
    + destruct (IH (inserted N (radarVal r) st))
        as (st' & es & -> & Hok' & Hbin'); [done..|].
      cbn [bind]. by eexists _, _.
Qed.

(** X9. [checkBreathing] counts over the array as stored, not over the
    samples in the order they arrived. The two counts differ by at most
    one; and when every sample is 0 or 1, as [digitalRead] returns them,
    the verdict is the same for both orders, so it does not depend on
    where the write cursor stands. *)
Theorem verdict_independent_of_cursor :
  ∀ (N : Z) (st : state),
    1 ≤ N ≤ INT_MAX →
    window_ok N st →
    (∃ t t',
       countTransitions N (samples st) = Ok t
       ∧ countTransitions N (arrival_order st) = Ok t'
       ∧ -1 ≤ t' - t ≤ 1)
    ∧ (Forall binary (samples st) →
       checkBreathing N (arrival_order st) = checkBreathing N (samples st)).
Proof.
  intros N st HN [Hlen Hidx].
  assert (Z.of_nat (length (arrival_order st)) = N) as Hlen'
    by (by rewrite length_arrival_order).
  rewrite !checkBreathing_ok, !countTransitions_ok by done.
  rewrite !adjacent_differences_flips. unfold arrival_order.
  set (c := Z.to_nat (indexSample st)).
  pose proof (flips_rotate_near (take c (samples st)) (drop c (samples st))) as Hnear.
  pose proof (flips_rotate_binary (take c (samples st)) (drop c (samples st))) as Hsame.
  rewrite take_drop in Hnear, Hsame.
  split.
  - eexists _, _. split; [reflexivity|]. split; [reflexivity|]. exact Hnear.
  - intros Hbin. f_equal. by apply Hsame.
Qed.

Lemma verdict_independent_of_cursor_witness :
  1 ≤ 5 ≤ INT_MAX
  ∧ window_ok 5 {| samples := [0; 1; 1; 0; 1]; indexSample := 2; lastCheck := 0 |}
  ∧ Forall binary [0; 1; 1; 0; 1]
  ∧ checkBreathing 5 (arrival_order {| samples := [0; 1; 1; 0; 1]; indexSample := 2; lastCheck := 0 |})
    = checkBreathing 5 [0; 1; 1; 0; 1].
Proof.
  assert (Forall binary [0; 1; 1; 0; 1]) as Hbin
    by (repeat constructor; (by left) || (by right)).
  split; [int_range|].
  split; [split; [reflexivity|simpl; lia]|].
  split; [exact Hbin|].
  apply (proj2 (verdict_independent_of_cursor 5
                  {| samples := [0; 1; 1; 0; 1]; indexSample := 2; lastCheck := 0 |}
                  ltac:(int_range)
                  ltac:(split; [reflexivity|simpl; lia]))).
  exact Hbin.
Defined.

(** X10. A signal that changes level at every sample reaches the
    largest possible count, [windowSize - 1], and is therefore rejected
    as soon as the window has at least 12 slots: the verdict is no
    presence. *)
Theorem flipping_at_every_sample_is_rejected :
  ∀ (N : Z) (snapshot : list Z),
    1 ≤ N ≤ INT_MAX →
    Z.of_nat (length snapshot) = N →
    (∀ i : nat, (S i < length snapshot)%nat → snapshot !! S i ≠ snapshot !! i) →
    countTransitions N snapshot = Ok (N - 1)
    ∧ (12 ≤ N → checkBreathing N snapshot = Ok false).
Proof.
  intros N l HN Hlen Hdiff.
  rewrite checkBreathing_ok, countTransitions_ok by done.
  rewrite adjacent_differences_flips, flips_all_differ by done.
  replace (Z.of_nat (pred (length l))) with (N - 1) by lia.
  split; [done|]. intros Hbig. f_equal.
  rewrite isPresent_between. apply bool_decide_eq_false_2. lia.
Qed.

Lemma flipping_at_every_sample_is_rejected_witness :
  countTransitions 12 [0; 1; 0; 1; 0; 1; 0; 1; 0; 1; 0; 1] = Ok (12 - 1)
  ∧ checkBreathing 12 [0; 1; 0; 1; 0; 1; 0; 1; 0; 1; 0; 1] = Ok false.
Proof.
  destruct (flipping_at_every_sample_is_rejected 12
              [0; 1; 0; 1; 0; 1; 0; 1; 0; 1; 0; 1]) as [Hcount Hverdict].
  - int_range.
  - reflexivity.
  - intros i Hi. simpl in Hi.
    do 11 (destruct i as [|i]; [discriminate|]). lia.
  - split; [exact Hcount|]. apply Hverdict. lia.
Defined.

(** X11. A window of fewer than 4 slots can never report presence: it
    has at most 2 adjacent pairs, below the lower threshold of 3. *)
Theorem window_below_4_never_detects :
  ∀ (N : Z) (snapshot : list Z),
    1 ≤ N ≤ 3 →
    Z.of_nat (length snapshot) = N →
    checkBreathing N snapshot = Ok false.
Proof.
  intros N l HN Hlen.
  rewrite checkBreathing_ok by (done || int_range). f_equal.
  pose proof (adjacent_differences_bound l).
  rewrite isPresent_between. apply bool_decide_eq_false_2. lia.
Qed.

Lemma window_below_4_never_detects_witness :
  1 ≤ 3 ≤ 3
  ∧ Z.of_nat (length [0; 1; 0]) = 3
  ∧ checkBreathing 3 [0; 1; 0] = Ok false.
Proof.
  split; [lia|]. split; [reflexivity|].
  apply (window_below_4_never_detects 3 [0; 1; 0]); [lia|reflexivity].
Defined.

(** X12. When the radar pin only ever reads 0 or 1, every sample in the
    window is 0 or 1 after [setup] and any number of iterations, and the
    window stays well formed. *)
Theorem run_keeps_samples_binary :
  ∀ (N si : Z) (rs : list readings),
    1 ≤ N ≤ INT_MAX →
    Forall (λ r, binary (radarVal r)) rs →
    ∃ st es, run N si rs = Ok (st, es)
      ∧ window_ok N st
      ∧ Forall binary (samples st).
Proof.
  intros N si rs HN Hrs. unfold run. rewrite setup_boot by lia. cbn [bind].
  apply run_loops_binary; [done|apply setup_window_ok; lia| |done].
  apply Forall_replicate. by right.
Qed.

Lemma run_keeps_samples_binary_witness :
  1 ≤ Esp32.windowSize ≤ INT_MAX
  ∧ ∃ st es,
      run Esp32.windowSize Esp32.sampleInterval
        [ {| radarVal := 0; co2Raw := 5; millis_cond := 10001; millis_store := 10001 |};
          {| radarVal := 1; co2Raw := 5; millis_cond := 10102; millis_store := 10102 |} ]
      = Ok (st, es)
      ∧ window_ok Esp32.windowSize st
      ∧ Forall binary (samples st).
Proof.
  split; [int_range|].
  apply (run_keeps_samples_binary Esp32.windowSize Esp32.sampleInterval);
    [int_range|].
  repeat constructor; (by left) || (by right).
Defined.

(** X13. Once at least [windowSize] radar readings, each 0 or 1, have
    been stored, the verdict of [checkBreathing] is a function of the
    last [windowSize] readings alone: presence exactly when, taken in
    the order they arrived, they change level between 3 and 10 times. *)
Theorem verdict_counts_changes_of_latest_samples :
  ∀ (N : Z) (vs : list Z) (st : state),
    1 ≤ N ≤ INT_MAX →
    window_ok N st →
    N ≤ Z.of_nat (length vs) →
    Forall binary vs →
    ∃ st',
      insert_all N vs st = Ok st'
      ∧ checkBreathing N (samples st')
        = Ok (bool_decide
                (3 ≤ Z.of_nat (adjacent_differences
                                 (drop (length vs - Z.to_nat N) vs)) ≤ 10)).
Proof.
  intros N vs st HN Hok Hfull Hbin.
  destruct (arrival_order_insert_all N vs st HN Hok)
    as (st' & Hrun & [Hlen' Hidx'] & _ & Harr).
  exists st'. split; [done|].
  rewrite drop_app_ge in Harr by (rewrite length_arrival_order; destruct Hok; lia).
  rewrite length_arrival_order in Harr.
  replace (length (samples st)) with (Z.to_nat N) in Harr by (destruct Hok; lia).
  rewrite <- Harr, checkBreathing_ok by done. f_equal.
  rewrite <- isPresent_between, !adjacent_differences_flips.
  unfold arrival_order in *. set (c := Z.to_nat (indexSample st')) in *.
  pose proof (flips_rotate_binary (take c (samples st')) (drop c (samples st'))) as Hsame.
  rewrite take_drop in Hsame. symmetry. apply Hsame.
  rewrite <- (take_drop c (samples st')). apply Forall_app.
  assert (Forall binary (drop c (samples st') ++ take c (samples st'))) as Harrbin
    by (rewrite Harr; by apply Forall_drop).
  apply Forall_app in Harrbin as [? ?]. done.
Qed.

Lemma verdict_counts_changes_of_latest_samples_witness :
  ∃ st',
    insert_all 4 [1; 0; 1; 0; 1; 1] {| samples := [1; 1; 1; 1]; indexSample := 1; lastCheck := 0 |}
    = Ok st'
    ∧ checkBreathing 4 (samples st')
      = Ok (bool_decide
              (3 ≤ Z.of_nat (adjacent_differences
                               (drop (length [1; 0; 1; 0; 1; 1] - Z.to_nat 4)
                                  [1; 0; 1; 0; 1; 1])) ≤ 10)).
Proof.
  apply (verdict_counts_changes_of_latest_samples 4 [1; 0; 1; 0; 1; 1]
           {| samples := [1; 1; 1; 1]; indexSample := 1; lastCheck := 0 |}).
  - int_range.
  - split; [reflexivity|simpl; lia].
  - simpl. lia.
  - repeat constructor; (by left) || (by right).
Defined.
